(** * The three endpoints of the authentication API (api/views.py, api/urls.py)

    The views are Python methods that talk to three collaborators: the
    Django user table (the Credential Store), the simplejwt token classes
    (the Token Issuer) and the logging module.  Each call to a collaborator
    is an event of a small free monad; a view is a program over these
    events and [run] interprets a program on a [World] holding the user
    table, the log and the instant of the clock and random source.  The
    trace of [run] lists every collaborator call a view made, in order.

    The fields of a request are strings throughout: what the views do
    with a JSON number, list or object in the place of a field is not
    covered. *)

From Stdlib Require Import String Ascii List Bool Lia.
From stdpp Require Import base gmap strings list pretty.

Open Scope string_scope.
Open Scope list_scope.

Set Warnings "-clear-no-such-hyp".

(** ** Data *)

(** A row of the user table: [password] holds the encoded hash. *)
Record User := mkUser {
  id : nat;
  username : string;
  password : string;
  email : string
}.

#[global] Instance User_eq_dec : EqDecision User.
Proof. solve_decision. Defined.

(** The HTTP methods a view is dispatched on ([http_method_names]). *)
Inductive Method :=
  GET | POST | PUT | PATCH | DELETE | HEAD | OPTIONS | TRACE.

#[global] Instance Method_eq_dec : EqDecision Method.
Proof. solve_decision. Defined.

(** [request.data] is a dict of the submitted fields; its values are
    strings, as the endpoints take them.  [data request !! k] is Python's
    [request.data.get(k)]: [None] for a missing key (a field sent as JSON
    null reads as [None] too, and is represented as missing). *)
Record Request := mkRequest {
  method : Method;
  path : string;
  authorization : option string;
  data : gmap string string
}.

(** [Response(data, status=...)]. *)
Record Response := mkResponse {
  response_data : gmap string string;
  status_code : nat
}.

#[global] Instance Response_eq_dec : EqDecision Response.
Proof. solve_decision. Defined.

Definition HTTP_200_OK : nat := 200.
Definition HTTP_201_CREATED : nat := 201.
Definition HTTP_400_BAD_REQUEST : nat := 400.
Definition HTTP_401_UNAUTHORIZED : nat := 401.
Definition HTTP_403_FORBIDDEN : nat := 403.
Definition HTTP_405_METHOD_NOT_ALLOWED : nat := 405.
Definition HTTP_500_INTERNAL_SERVER_ERROR : nat := 500.

Inductive Level := DEBUG | INFO | WARNING | ERROR | CRITICAL.

#[global] Instance Level_eq_dec : EqDecision Level.
Proof. solve_decision. Defined.

Record LogRecord := mkLog { levelname : Level; message : string }.

#[global] Instance LogRecord_eq_dec : EqDecision LogRecord.
Proof. solve_decision. Defined.

(** What the configured authentication class makes of a request: a user
    when it accepts the presented token, no credentials at all (it returns
    None) or a refusal of the token (it raises AuthenticationFailed). *)
Inductive AuthResult :=
| Authenticated (user : User)
| NoCredentials
| Refused (detail : string).

(** The exceptions the framework turns into error responses. *)
Inductive APIException :=
| NotAuthenticated
| AuthenticationFailed (detail : string)
| PermissionDenied
| MethodNotAllowed (m : Method).

(** What a call into the user table can raise and the views do not
    catch: the insert of a name that is already stored breaks the UNIQUE
    constraint of the username column. *)
Inductive Exception := IntegrityError.

(** A call that may raise. *)
Inductive Try (X : Type) : Type :=
| Returns (x : X)
| Raises (exc : Exception).

Arguments Returns {X} x.
Arguments Raises {X} exc.

(** The state the collaborators hold: the user table in primary-key order,
    the records the views' logger was handed, and [instant], which counts the
    draws made so far on the clock and the random source (salts, token
    identifiers, expiry times). *)
Record World := mkWorld {
  users : list User;
  logs : list LogRecord;
  instant : nat
}.

Definition set_users (us : list User) (w : World) : World :=
  mkWorld us (logs w) (instant w).
Definition add_log (r : LogRecord) (w : World) : World :=
  mkWorld (users w) (logs w ++ [r]) (instant w).
Definition tick (w : World) : World :=
  mkWorld (users w) (logs w) (S (instant w)).

(** ** The collaborators

    None of this is code of the repository: the normalisation of names
    (Unicode NFKC) and of addresses (the domain in lower case) that
    [create_user] applies, the hashers of django.contrib.auth with their
    test for a hash whose parameters are out of date, the token classes
    of rest_framework_simplejwt, the authentication class named in the
    project settings and the bodies the framework gives the responses it
    makes itself are taken as parameters.  Those that draw on the clock
    or the random source take the instant of the call. *)
Class Collaborators := {
  RefreshToken : Type;
  AccessToken : Type;
  normalize_username : string -> string;
  normalize_email : string -> string;
  make_password : nat -> string -> string;
  check_password : string -> string -> bool;
  must_update : string -> bool;
  for_user : nat -> User -> RefreshToken;
  access_token : nat -> RefreshToken -> AccessToken;
  token_str : AccessToken -> string;
  authenticate : nat -> list User -> option string -> AuthResult;
  authenticate_header : option string;
  exception_data : APIException -> gmap string string;
  determine_metadata : Request -> gmap string string;
  server_error_data : Exception -> gmap string string
}.

(** ** The user table *)

(** [User.objects.filter(username=...)], a QuerySet in primary-key order. *)
Definition filter_username (name : string) (us : list User) : list User :=
  filter (λ r, username r = name) us.

(** [QuerySet.exists()] and [QuerySet.first()]. *)
Definition exists_ (qs : list User) : bool :=
  match qs with [] => false | _ :: _ => true end.
Definition first (qs : list User) : option User := head qs.

(** The key an insert gives a new row. *)
Definition next_id (us : list User) : nat := S (max_list (id <$> us)).

(** [user.save()]: the row with the key of [r] is overwritten, and [r] is
    inserted when there is none. *)
Definition save (r : User) (us : list User) : list User :=
  if existsb (λ x, bool_decide (id x = id r)) us
  then (λ x, if bool_decide (id x = id r) then r else x) <$> us
  else us ++ [r].

(** [user.save(update_fields=["password"])]: the password column of the
    row with the key of [r] takes the hash [r] holds. *)
Definition save_password (r : User) (us : list User) : list User :=
  (λ x, if bool_decide (id x = id r)
        then mkUser (id x) (username x) (password r) (email x)
        else x) <$> us.

Section Views.
Context `{C : Collaborators}.

(** [user.set_password(raw)]: the object holds a fresh hash of [raw]. *)
Definition set_password (n : nat) (raw : string) (user : User) : User :=
  mkUser (id user) (username user) (make_password n raw) (email user).

(** [user.check_password(raw)] hands the hasher a setter, which the hasher
    calls when the secret verifies against a hash whose parameters are
    out of date: the setter sets a fresh hash on the object and saves the
    password column.  [checked_user] is the object and [checked_world]
    the world as the call leaves them. *)
Definition upgrades (raw : string) (user : User) : bool :=
  check_password raw (password user) && must_update (password user).

Definition checked_user (n : nat) (raw : string) (user : User) : User :=
  if upgrades raw user then set_password n raw user else user.

Definition checked_world (raw : string) (user : User) (w : World) : World :=
  if upgrades raw user
  then tick (set_users
               (save_password (set_password (instant w) raw user) (users w))
               w)
  else w.

(** ** Collaborator calls *)

Inductive Event : Type -> Type :=
| User_objects_filter (name : string) : Event (list User)
| User_objects_create_user (name pw mail : string) : Event (Try User)
| User_save (user : User) : Event unit
| User_check_password (user : User) (raw : string) : Event (bool * User)
| Logger_info (msg : string) : Event unit
| RefreshToken_for_user (user : User) : Event RefreshToken
| Refresh_access_token (refresh : RefreshToken) : Event AccessToken
| Perform_authentication (header : option string) : Event AuthResult.

Inductive Call : Type :=
| Called {X : Type} (e : Event X).

(** Which collaborator a call goes to. *)
Definition store_call (c : Call) : bool :=
  match c with
  | Called (User_objects_filter _) | Called (User_objects_create_user _ _ _)
  | Called (User_save _) | Called (User_check_password _ _) => true
  | Called _ => false
  end.

Definition issuer_call (c : Call) : bool :=
  match c with
  | Called (RefreshToken_for_user _) | Called (Refresh_access_token _)
  | Called (Perform_authentication _) => true
  | Called _ => false
  end.

Definition logger_call (c : Call) : bool :=
  match c with
  | Called (Logger_info _) => true
  | Called _ => false
  end.

(** What one call returns and does to the world.

    [create_user] normalises the address and the name, hashes the secret
    and inserts the row; the insert raises when the normalised name is
    already stored, after the salt of the hash was drawn.

    [user.check_password(raw)] returns the verdict of the hasher, after
    the upgrade of the hash when one is due.  The call returns the
    verdict together with the object as it leaves it, since the view
    goes on with that object. *)
Definition step {X : Type} (e : Event X) (w : World) : X * World :=
  match e in Event T return T * World with
  | User_objects_filter name => (filter_username name (users w), w)
  | User_objects_create_user name pw mail =>
      let r := mkUser (next_id (users w)) (normalize_username name)
                      (make_password (instant w) pw) (normalize_email mail) in
      if bool_decide (username r ∈ username <$> users w)
      then (Raises IntegrityError, tick w)
      else (Returns r, tick (set_users (users w ++ [r]) w))
  | User_save r => (tt, set_users (save r (users w)) w)
  | User_check_password r raw =>
      ((check_password raw (password r), checked_user (instant w) raw r),
       checked_world raw r w)
  | Logger_info msg => (tt, add_log (mkLog INFO msg) w)
  | RefreshToken_for_user r => (for_user (instant w) r, tick w)
  | Refresh_access_token t => (access_token (instant w) t, tick w)
  | Perform_authentication h => (authenticate (instant w) (users w) h, w)
  end.

(** ** Programs over the calls *)

Inductive prog (A : Type) : Type :=
| Ret (a : A)
| Vis {X : Type} (e : Event X) (k : X -> prog A).

Arguments Ret {A} a.
Arguments Vis {A X} e k.

Fixpoint bind {A B : Type} (p : prog A) (f : A -> prog B) : prog B :=
  match p with
  | Ret a => f a
  | Vis e k => Vis e (fun x => bind (k x) f)
  end.

Definition trigger {X : Type} (e : Event X) : prog X := Vis e Ret.

Notation "x <- p ;; k" := (bind p (fun x => k))
  (at level 100, p at next level, right associativity).

Record Outcome (A : Type) := mkOutcome {
  result : A;
  world : World;
  trace : list Call
}.

Arguments mkOutcome {A} _ _ _.
Arguments result {A} _.
Arguments world {A} _.
Arguments trace {A} _.

Fixpoint run {A : Type} (p : prog A) (w : World) : Outcome A :=
  match p with
  | Ret a => mkOutcome a w []
  | Vis e k =>
      let o := run (k (fst (step e w))) (snd (step e w)) in
      mkOutcome (result o) (world o) (Called e :: trace o)
  end.

(** ** api/views.py *)

(** Python's truth test on a field read with [.get]: [given v] is [None]
    exactly when [not v] holds (the field is missing or the empty string),
    and is the string otherwise. *)
Definition given (v : option string) : option string :=
  match v with
  | Some s => if String.eqb s "" then None else Some s
  | None => None
  end.

Inductive Permission := AllowAny | IsAuthenticated.

(** An APIView subclass: its permission classes and the handler methods it
    defines. *)
Record APIView := mkView {
  permission_classes : list Permission;
  get : option (Request -> prog Response);
  post : option (Request -> prog Response)
}.

Definition All_fields_are_required : Response :=
  mkResponse {[ "error" := "All fields are required" ]} HTTP_400_BAD_REQUEST.
Definition Username_already_taken : Response :=
  mkResponse {[ "error" := "Username already taken" ]} HTTP_400_BAD_REQUEST.
Definition User_created_successfully : Response :=
  mkResponse {[ "message" := "User created successfully" ]} HTTP_201_CREATED.

(** What the caller gets when a view raises an exception that is not one
    of the framework's: the view ends there and Django answers 500. *)
Definition server_error (exc : Exception) : Response :=
  mkResponse (server_error_data exc) HTTP_500_INTERNAL_SERVER_ERROR.

(** [RegisterUserView.post].  [create_user] is not wrapped in a [try]:
    when it raises, the view ends with the server error. *)
Definition RegisterUserView_post (request : Request) : prog Response :=
  let username := data request !! "username" in
  let password := data request !! "password" in
  let email := data request !! "email" in
  match given username, given password, given email with
  | Some username, Some password, Some email =>
      qs <- trigger (User_objects_filter username) ;;
      if exists_ qs then Ret Username_already_taken
      else
        created <-
          trigger (User_objects_create_user username password email) ;;
        match created with
        | Raises exc => Ret (server_error exc)
        | Returns user =>
            _ <- trigger (User_save user) ;;
            Ret User_created_successfully
        end
  | _, _, _ => Ret All_fields_are_required
  end.

Definition RegisterUserView : APIView :=
  mkView [AllowAny] None (Some RegisterUserView_post).

Definition Both_username_and_password_are_required : Response :=
  mkResponse {[ "error" := "Both username and password are required" ]}
             HTTP_400_BAD_REQUEST.
Definition Invalid_credentials : Response :=
  mkResponse {[ "error" := "Invalid credentials" ]} HTTP_400_BAD_REQUEST.

(** [LoginUserView.post].  [not user or not user.check_password(password)]
    asks for the password check only when a row was found; [user] is
    afterwards the object as the check left it. *)
Definition LoginUserView_post (request : Request) : prog Response :=
  let username := data request !! "username" in
  let password := data request !! "password" in
  match given username, given password with
  | Some username, Some password =>
      _ <- trigger (Logger_info ("Attempting login for " +:+ username)) ;;
      qs <- trigger (User_objects_filter username) ;;
      match first qs with
      | None => Ret Invalid_credentials
      | Some user =>
          checked <- trigger (User_check_password user password) ;;
          let '(ok, user) := checked in
          if ok then
            refresh <- trigger (RefreshToken_for_user user) ;;
            access <- trigger (Refresh_access_token refresh) ;;
            Ret (mkResponse {[ "access_token" := token_str access ]}
                            HTTP_200_OK)
          else Ret Invalid_credentials
      end
  | _, _ => Ret Both_username_and_password_are_required
  end.

Definition LoginUserView : APIView :=
  mkView [AllowAny] None (Some LoginUserView_post).

Definition You_have_access : Response :=
  mkResponse {[ "message" := "You have access to this secure endpoint!" ]}
             HTTP_200_OK.

(** [SecureApiView.get]. *)
Definition SecureApiView_get (request : Request) : prog Response :=
  Ret You_have_access.

Definition SecureApiView : APIView :=
  mkView [IsAuthenticated] (Some SecureApiView_get) None.

(** ** What APIView does around a handler

    rest_framework's [APIView.dispatch]: the request is authenticated and
    the permission classes are checked before the handler method is looked
    up and called; an exception raised on the way becomes the response.
    Besides the methods a view defines, the framework binds [head] to
    [get] when the view has one, and answers OPTIONS itself with the
    metadata of the view. *)

Definition has_permission (p : Permission) (a : AuthResult) : bool :=
  match p, a with
  | AllowAny, _ => true
  | IsAuthenticated, Authenticated _ => true
  | IsAuthenticated, _ => false
  end.

Definition check_permissions (view : APIView) (a : AuthResult) : bool :=
  forallb (fun p => has_permission p a) (permission_classes view).

Definition handle_exception (exc : APIException) : Response :=
  mkResponse (exception_data exc)
    match exc with
    | NotAuthenticated | AuthenticationFailed _ =>
        match authenticate_header with
        | Some _ => HTTP_401_UNAUTHORIZED
        | None => HTTP_403_FORBIDDEN
        end
    | PermissionDenied => HTTP_403_FORBIDDEN
    | MethodNotAllowed _ => HTTP_405_METHOD_NOT_ALLOWED
    end.

(** [APIView.options]. *)
Definition options (request : Request) : prog Response :=
  Ret (mkResponse (determine_metadata request) HTTP_200_OK).

Definition handler (view : APIView) (m : Method)
  : option (Request -> prog Response) :=
  match m with
  | GET | HEAD => get view
  | POST => post view
  | OPTIONS => Some options
  | PUT | PATCH | DELETE | TRACE => None
  end.

Definition dispatch (view : APIView) (request : Request) : prog Response :=
  a <- trigger (Perform_authentication (authorization request)) ;;
  match a with
  | Refused detail => Ret (handle_exception (AuthenticationFailed detail))
  | _ =>
      if check_permissions view a then
        match handler view (method request) with
        | Some h => h request
        | None => Ret (handle_exception (MethodNotAllowed (method request)))
        end
      else
        Ret (handle_exception
               match a with
               | Authenticated _ => PermissionDenied
               | _ => NotAuthenticated
               end)
  end.

(** ** api/urls.py *)

(** [path(route, view, name=...)]. *)
Record URLPattern := mkPath {
  route : string;
  view : APIView;
  name : string
}.

Definition urlpatterns : list URLPattern :=
  [ mkPath "register/" RegisterUserView "register";
    mkPath "login/" LoginUserView "login";
    mkPath "secure/" SecureApiView "secure-api" ].

(** The view of the first pattern whose route is the path; [None] when no
    pattern matches and the request never reaches a view. *)
Definition resolve (p : string) : option APIView :=
  view <$> head (filter (λ u, route u = p) urlpatterns).

Definition serve (request : Request) : option (prog Response) :=
  (fun view => dispatch view request) <$> resolve (path request).

(** The world after the requests of a list were served one after the
    other. *)
Definition serve_all (requests : list Request) (w : World) : World :=
  foldl (λ w request,
           match serve request with
           | Some p => world (run p w)
           | None => w
           end) w requests.

End Views.

Arguments Ret {C A} a.
Arguments Vis {C A X} e k.
Arguments mkOutcome {C A} _ _ _.
Arguments result {C A} _.
Arguments world {C A} _.
Arguments trace {C A} _.

(** ** Vocabulary of the statements *)

(** The record [logger.info] is handed at a login attempt. *)
Definition attempt (name : string) : LogRecord :=
  mkLog INFO ("Attempting login for " +:+ name).

(** A field that is missing or the empty string. *)
Definition absent_or_empty (v : option string) : Prop :=
  v = None ∨ v = Some "".

(** ** A small instance of the collaborators, to run the views on

    Names are normalised by folding the fullwidth forms of the ASCII
    characters (U+FF01 to U+FF5E), a part of NFKC, and addresses by
    lowering the ASCII letters after the last at-sign.  The hash of a
    secret is the secret behind a fixed prefix; hashes behind the prefix
    of an older scheme still verify and are out of date.  The access
    token minted at an instant is the number of that instant, and the one
    bearer token accepted is the last one minted, for the first row. *)
Module Demo.

(** In UTF-8 the fullwidth forms are the bytes EF BC 81..BF (for ! to _)
    and EF BD 80..9E (for ` to ~). *)
Fixpoint fold_fullwidth (s : string) : string :=
  match s with
  | EmptyString => EmptyString
  | String a s' =>
      match s' with
      | String b (String c rest) =>
          let '(a, b, c) := (nat_of_ascii a, nat_of_ascii b, nat_of_ascii c)
          in
          if ((a =? 239) && (b =? 188) && (129 <=? c) && (c <=? 191))%nat
          then String (ascii_of_nat (c - 96)) (fold_fullwidth rest)
          else if ((a =? 239) && (b =? 189) && (128 <=? c) && (c <=? 158))%nat
          then String (ascii_of_nat (c - 32)) (fold_fullwidth rest)
          else String (ascii_of_nat a) (fold_fullwidth s')
      | _ => String a (fold_fullwidth s')
      end
  end.

Definition lower (a : ascii) : ascii :=
  let n := nat_of_ascii a in
  if ((65 <=? n) && (n <=? 90))%nat then ascii_of_nat (n + 32) else a.

Fixpoint lower_all (s : string) : string :=
  match s with
  | EmptyString => EmptyString
  | String a s' => String (lower a) (lower_all s')
  end.

(** The address with what follows its last at-sign in lower case, and
    whether it has an at-sign. *)
Fixpoint lower_domain (s : string) : string * bool :=
  match s with
  | EmptyString => (EmptyString, false)
  | String a s' =>
      let '(t, seen) := lower_domain s' in
      if seen then (String a t, true)
      else if Ascii.eqb a "@" then (String a (lower_all s'), true)
      else (String a t, false)
  end.

Definition hash (raw : string) : string := "plain$" +:+ raw.
Definition old_hash (raw : string) : string := "old$" +:+ raw.

#[export] Instance collaborators : Collaborators := {|
  RefreshToken := nat * nat;
  AccessToken := nat * nat;
  normalize_username := fold_fullwidth;
  normalize_email := fun mail => fst (lower_domain mail);
  make_password := fun _ raw => hash raw;
  check_password := fun raw encoded =>
    String.eqb encoded (hash raw) || String.eqb encoded (old_hash raw);
  must_update := String.prefix "old$";
  for_user := fun n u => (n, id u);
  access_token := fun n t => (n, snd t);
  token_str := fun a => pretty (fst a);
  authenticate := fun n us h =>
    match h, us with
    | None, _ => NoCredentials
    | Some t, u :: _ =>
        if String.eqb t ("Bearer " +:+ pretty (n - 1)) then Authenticated u
        else Refused "Token is invalid or expired"
    | Some _, [] => Refused "User not found"
    end;
  authenticate_header := Some "Bearer realm=api";
  exception_data := fun exc =>
    match exc with
    | NotAuthenticated =>
        {[ "detail" := "Authentication credentials were not provided." ]}
    | AuthenticationFailed detail => {[ "detail" := detail ]}
    | PermissionDenied =>
        {[ "detail" := "You do not have permission to perform this action." ]}
    | MethodNotAllowed _ => {[ "detail" := "Method not allowed." ]}
    end;
  determine_metadata := fun request => {[ "name" := path request ]};
  server_error_data := fun _ => {[ "detail" := "Server Error (500)" ]}
|}.

Definition alice : User := mkUser 1 "alice" (hash "pw1") "a@x.com".

Definition empty_world : World := mkWorld [] [] 0.
Definition alice_world : World := mkWorld [alice] [] 1.

Definition post_to (p : string) (fields : gmap string string) : Request :=
  mkRequest POST p None fields.

Definition register_alice : Request :=
  post_to "register/"
    {[ "username" := "alice"; "password" := "pw1"; "email" := "a@x.com" ]}.
Definition register_no_email : Request :=
  post_to "register/" {[ "username" := "alice"; "password" := "pw1" ]}.
Definition register_name_only : Request :=
  post_to "register/" {[ "username" := "alice" ]}.

Definition login_alice : Request :=
  post_to "login/" {[ "username" := "alice"; "password" := "pw1" ]}.
Definition login_alice_wrong : Request :=
  post_to "login/" {[ "username" := "alice"; "password" := "wrong" ]}.
Definition login_no_password : Request :=
  post_to "login/" {[ "username" := "bob" ]}.
Definition login_empty_password : Request :=
  post_to "login/" {[ "username" := "alice"; "password" := "" ]}.

Definition secure_with (h : option string) : Request :=
  mkRequest GET "secure/" h ∅.

(** A registration under the name of alice with a fullwidth first letter
    (U+FF41), which NFKC folds to alice, and with a domain in capitals. *)
Definition register_wide_alice : Request :=
  post_to "register/"
    {[ "username" := "ａlice"; "password" := "pw9"; "email" := "w@X.COM" ]}.
Definition login_wide_alice : Request :=
  post_to "login/" {[ "username" := "ａlice"; "password" := "pw9" ]}.

(** A table whose one row has a hash that verifies the empty secret, and
    one whose row has a hash of the older scheme. *)
Definition blank_world : World :=
  mkWorld [mkUser 1 "alice" (hash "") "a@x.com"] [] 1.
Definition old_alice : User := mkUser 1 "alice" (old_hash "pw1") "a@x.com".
Definition old_world : World := mkWorld [old_alice] [] 1.

(** bob registers with the contact of alice; a GET sent to login/. *)
Definition register_bob : Request :=
  post_to "register/"
    {[ "username" := "bob"; "password" := "pw2"; "email" := "a@x.com" ]}.
Definition get_login : Request :=
  mkRequest GET "login/" None
    {[ "username" := "alice"; "password" := "pw1" ]}.

(** The worlds of the scenario: alice has registered, tried a wrong
    secret, then logged in. *)
Definition alice_failed_world : World :=
  mkWorld [alice] [attempt "alice"] 1.
Definition alice_logged_in_world : World :=
  mkWorld [alice] [attempt "alice"; attempt "alice"] 3.

Definition served (request : Request) (w : World)
  : option (Response * World) :=
  (λ p, (result (run p w), world (run p w))) <$> serve request.

End Demo.

(** ** Three sentences of the specification, as they are worded

    They are refuted below; the theorems on the handlers state what holds
    instead. *)

(** Every registration request whose name the store already holds is
    answered with the conflict error. *)
Definition every_existing_name_conflicts `{C : Collaborators} : Prop :=
  ∀ (w : World) (request : Request) (name : string),
    data request !! "username" = Some name →
    name ∈ username <$> users w →
    result (run (RegisterUserView_post request) w) =
      mkResponse {[ "error" := "Username already taken" ]} 400.

(** Every login request that carries both fields, with the name of a
    stored row and a secret that verifies against the hash of that row,
    is answered 200. *)
Definition every_matching_login_mints `{C : Collaborators} : Prop :=
  ∀ (w : World) (request : Request) (name pw : string) (user : User),
    data request !! "username" = Some name →
    data request !! "password" = Some pw →
    user ∈ users w → username user = name →
    check_password pw (password user) = true →
    status_code (result (run (LoginUserView_post request) w)) = 200.

(** Every login attempt logs the attempted username at level INFO. *)
Definition every_login_attempt_logged `{C : Collaborators} : Prop :=
  ∀ (w : World) (request : Request) (name : string),
    data request !! "username" = Some name →
    logs (world (run (LoginUserView_post request) w)) =
      logs w ++ [mkLog INFO ("Attempting login for " +:+ name)].

(** ** Further vocabulary for the endpoints *)

(** One step of [serve_all]. *)
Definition serve_one `{C : Collaborators} (w : World) (request : Request)
  : World :=
  match serve request with
  | Some p => world (run p w)
  | None => w
  end.

(** What of a row no request changes: its key, its name and its
    contact. *)
Definition same_identity (x y : User) : Prop :=
  id y = id x ∧ username y = username x ∧ email y = email x.

(** * Properties *)

Section Properties.
Context `{C : Collaborators}.

(** ** The truth test *)

Lemma given_Some (v : option string) (s : string) :
  given v = Some s ↔ v = Some s ∧ s ≠ "".
Proof.
  unfold given. destruct v as [t|]; [|naive_solver].
  destruct (String.eqb_spec t ""); naive_solver.
Qed.

Lemma given_None (v : option string) : given v = None ↔ absent_or_empty v.
Proof.
  unfold given, absent_or_empty. destruct v as [t|]; [|naive_solver].
  destruct (String.eqb_spec t ""); naive_solver.
Qed.

(** ** The user table *)

Lemma filter_username_nil (name : string) (us : list User) :
  filter_username name us = [] ↔ name ∉ username <$> us.
Proof.
  unfold filter_username. induction us as [|r us IH]; simpl.
  - split; [intros _; apply not_elem_of_nil | done].
  - rewrite filter_cons, not_elem_of_cons. case_decide; naive_solver.
Qed.

Lemma first_elem_of (name : string) (us : list User) (r : User) :
  first (filter_username name us) = Some r → r ∈ us ∧ username r = name.
Proof.
  unfold first, filter_username. intros H.
  apply head_Some_elem_of, list_elem_of_filter in H. naive_solver.
Qed.

Lemma first_None (name : string) (us : list User) :
  first (filter_username name us) = None ↔ name ∉ username <$> us.
Proof.
  rewrite <- filter_username_nil. unfold first.
  by destruct (filter_username name us).
Qed.

(** When names are unique, the row the lookup finds is the row of that
    name. *)
Lemma first_unique (us : list User) (r : User) :
  NoDup (username <$> us) → r ∈ us →
  first (filter_username (username r) us) = Some r.
Proof.
  unfold first, filter_username.
  induction us as [|x us IH]; simpl; intros Hnd Hin.
  - by apply elem_of_nil in Hin.
  - apply NoDup_cons in Hnd as [Hx Hnd]. rewrite filter_cons.
    apply elem_of_cons in Hin as [->|Hin].
    + by rewrite decide_True.
    + rewrite decide_False; [by apply IH|].
      intros Heq. apply Hx. rewrite Heq. by apply list_elem_of_fmap_2.
Qed.

Lemma next_id_fresh (us : list User) : Forall (λ x, id x ≠ next_id us) us.
Proof.
  apply Forall_forall. intros x Hx Heq.
  assert (id x <= max_list (id <$> us)).
  { apply max_list_elem_of_le. by apply list_elem_of_fmap_2. }
  unfold next_id in Heq. lia.
Qed.

Lemma overwrite_absent (n : nat) (r : User) (us : list User) :
  Forall (λ x, id x ≠ n) us →
  (λ x, if bool_decide (id x = n) then r else x) <$> us = us.
Proof.
  induction 1 as [|x l Hx _ IH]; [done|]. rewrite fmap_cons, IH.
  by rewrite (bool_decide_false (id x = n)).
Qed.

(** Saving the row that was just inserted changes nothing. *)
Lemma save_created (r : User) (us : list User) :
  id r = next_id us → save r (us ++ [r]) = us ++ [r].
Proof.
  intros Hid. unfold save.
  assert (Hex : existsb (λ x, bool_decide (id x = id r)) (us ++ [r]) = true).
  { rewrite existsb_app. simpl.
    rewrite (bool_decide_true (id r = id r)) by reflexivity.
    by rewrite orb_true_r. }
  rewrite Hex, fmap_app. simpl.
  rewrite (bool_decide_true (id r = id r)) by reflexivity.
  f_equal. apply overwrite_absent. rewrite Hid. apply next_id_fresh.
Qed.

(** [save_password] touches the password column only. *)
Lemma save_password_identity (r : User) (us : list User) :
  Forall2 same_identity us (save_password r us).
Proof.
  unfold save_password. induction us as [|x us IH]; [constructor|].
  rewrite fmap_cons. constructor; [|done].
  by case_bool_decide.
Qed.

Lemma same_identity_names (us us' : list User) :
  Forall2 same_identity us us' → username <$> us' = username <$> us.
Proof.
  induction 1 as [|x y us us' (_ & Hn & _) _ IH]; [done|].
  by rewrite !fmap_cons, Hn, IH.
Qed.

Lemma same_identity_refl (us : list User) : Forall2 same_identity us us.
Proof. by apply Forall_Forall2_diag, Forall_forall. Qed.


(** ** The check of the secret *)

Lemma checked_world_wrong (raw : string) (user : User) (w : World) :
  check_password raw (password user) = false →
  checked_world raw user w = w.
Proof.
  unfold checked_world, upgrades. by intros ->.
Qed.

Lemma checked_world_logs (raw : string) (user : User) (w : World) :
  logs (checked_world raw user w) = logs w.
Proof.
  unfold checked_world. by destruct (upgrades raw user).
Qed.

Lemma checked_world_users (raw : string) (user : User) (w : World) :
  Forall2 same_identity (users w) (users (checked_world raw user w)).
Proof.
  unfold checked_world. destruct (upgrades raw user); cbn [users tick set_users].
  - apply save_password_identity.
  - apply same_identity_refl.
Qed.

Lemma checked_world_add_log (raw : string) (user : User) (r : LogRecord)
    (w : World) :
  checked_world raw user (add_log r w) = add_log r (checked_world raw user w).
Proof. unfold checked_world. by destruct (upgrades raw user). Qed.

Lemma checked_user_identity (n : nat) (raw : string) (user : User) :
  same_identity user (checked_user n raw user).
Proof. unfold checked_user. by destruct (upgrades raw user). Qed.

(** ** Registration *)

Lemma run_register_invalid (w : World) (request : Request) :
  given (data request !! "username") = None ∨
  given (data request !! "password") = None ∨
  given (data request !! "email") = None →
  run (RegisterUserView_post request) w =
    mkOutcome All_fields_are_required w [].
Proof.
  unfold RegisterUserView_post. intros H.
  destruct (given (data request !! "username")),
           (given (data request !! "password")),
           (given (data request !! "email")); naive_solver.
Qed.

Lemma run_register_taken (w : World) (request : Request)
    (name pw mail : string) :
  given (data request !! "username") = Some name →
  given (data request !! "password") = Some pw →
  given (data request !! "email") = Some mail →
  name ∈ username <$> users w →
  run (RegisterUserView_post request) w =
    mkOutcome Username_already_taken w [Called (User_objects_filter name)].
Proof.
  unfold RegisterUserView_post. intros -> -> -> Hin.
  cbn [bind trigger run step fst snd].
  destruct (filter_username name (users w)) as [|r qs] eqn:Hqs.
  - by apply filter_username_nil in Hqs.
  - reflexivity.
Qed.

(** The row [create_user] makes of the submitted fields. *)
Lemma run_register_created (w : World) (request : Request)
    (name pw mail : string) :
  given (data request !! "username") = Some name →
  given (data request !! "password") = Some pw →
  given (data request !! "email") = Some mail →
  name ∉ username <$> users w →
  normalize_username name ∉ username <$> users w →
  let r := mkUser (next_id (users w)) (normalize_username name)
                  (make_password (instant w) pw) (normalize_email mail) in
  run (RegisterUserView_post request) w =
    mkOutcome User_created_successfully
      (mkWorld (users w ++ [r]) (logs w) (S (instant w)))
      [ Called (User_objects_filter name);
        Called (User_objects_create_user name pw mail);
        Called (User_save r) ].
Proof.
  intros Hu Hp He Hin Hnorm r. unfold RegisterUserView_post.
  rewrite Hu, Hp, He. apply filter_username_nil in Hin.
  cbn [bind trigger run step fst snd]. rewrite Hin.
  cbn [exists_ bind trigger run step fst snd username].
  rewrite bool_decide_false by done.
  cbn [bind run step fst snd result world trace].
  unfold set_users, tick. cbn [users logs instant].
  fold r. by rewrite (save_created r (users w)).
Qed.

(** The lookup misses a name whose normal form is stored, and the insert
    raises. *)
Lemma run_register_duplicate (w : World) (request : Request)
    (name pw mail : string) :
  given (data request !! "username") = Some name →
  given (data request !! "password") = Some pw →
  given (data request !! "email") = Some mail →
  name ∉ username <$> users w →
  normalize_username name ∈ username <$> users w →
  run (RegisterUserView_post request) w =
    mkOutcome (server_error IntegrityError) (tick w)
      [ Called (User_objects_filter name);
        Called (User_objects_create_user name pw mail) ].
Proof.
  intros Hu Hp He Hin Hnorm. unfold RegisterUserView_post.
  rewrite Hu, Hp, He. apply filter_username_nil in Hin.
  cbn [bind trigger run step fst snd]. rewrite Hin.
  cbn [exists_ bind trigger run step fst snd username].
  by rewrite bool_decide_true.
Qed.

(** ** Login *)

Lemma run_login_invalid (w : World) (request : Request) :
  given (data request !! "username") = None ∨
  given (data request !! "password") = None →
  run (LoginUserView_post request) w =
    mkOutcome Both_username_and_password_are_required w [].
Proof.
  unfold LoginUserView_post. intros H.
  destruct (given (data request !! "username")),
           (given (data request !! "password")); naive_solver.
Qed.

Lemma run_login_unknown (w : World) (request : Request) (name pw : string) :
  given (data request !! "username") = Some name →
  given (data request !! "password") = Some pw →
  name ∉ username <$> users w →
  run (LoginUserView_post request) w =
    mkOutcome Invalid_credentials (add_log (attempt name) w)
      [ Called (Logger_info ("Attempting login for " +:+ name));
        Called (User_objects_filter name) ].
Proof.
  intros Hu Hp Hin. unfold LoginUserView_post. rewrite Hu, Hp.
  apply first_None in Hin.
  cbn [bind trigger run step fst snd add_log users]. by rewrite Hin.
Qed.

Lemma run_login_found (w : World) (request : Request) (name pw : string)
    (user : User) :
  given (data request !! "username") = Some name →
  given (data request !! "password") = Some pw →
  first (filter_username name (users w)) = Some user →
  run (LoginUserView_post request) w =
    if check_password pw (password user) then
      let user' := checked_user (instant w) pw user in
      let w' := checked_world pw user (add_log (attempt name) w) in
      mkOutcome
        (mkResponse
           {[ "access_token" :=
                token_str (access_token (S (instant w'))
                                        (for_user (instant w') user')) ]}
           HTTP_200_OK)
        (tick (tick w'))
        [ Called (Logger_info ("Attempting login for " +:+ name));
          Called (User_objects_filter name);
          Called (User_check_password user pw);
          Called (RefreshToken_for_user user');
          Called (Refresh_access_token (for_user (instant w') user')) ]
    else
      mkOutcome Invalid_credentials (add_log (attempt name) w)
        [ Called (Logger_info ("Attempting login for " +:+ name));
          Called (User_objects_filter name);
          Called (User_check_password user pw) ].
Proof.
  intros Hu Hp Hfirst. unfold LoginUserView_post. rewrite Hu, Hp.
  cbn [bind trigger run step fst snd add_log users]. rewrite Hfirst.
  cbn [bind trigger run step fst snd].
  destruct (check_password pw (password user)) eqn:Hc; [done|].
  cbn [bind run result world trace].
  by rewrite checked_world_wrong.
Qed.

(** ** Dispatch and routing *)

Lemma run_dispatch (view : APIView) (request : Request) (w : World) :
  run (dispatch view request) w =
    let call := Called (Perform_authentication (authorization request)) in
    let a := authenticate (instant w) (users w) (authorization request) in
    match a with
    | Refused detail =>
        mkOutcome (handle_exception (AuthenticationFailed detail)) w [call]
    | _ =>
        if check_permissions view a then
          match handler view (method request) with
          | Some h =>
              mkOutcome (result (run (h request) w))
                        (world (run (h request) w))
                        (call :: trace (run (h request) w))
          | None =>
              mkOutcome (handle_exception (MethodNotAllowed (method request)))
                        w [call]
          end
        else
          mkOutcome
            (handle_exception
               match a with
               | Authenticated _ => PermissionDenied
               | _ => NotAuthenticated
               end) w [call]
    end.
Proof.
  unfold dispatch. cbn [bind trigger run step fst snd].
  destruct (authenticate (instant w) (users w) (authorization request));
    cbn zeta; try reflexivity;
    destruct (check_permissions view _); try reflexivity;
    destruct (handler view (method request)); reflexivity.
Qed.

Lemma resolve_route (p : string) (v : APIView) :
  resolve p = Some v →
  (p = "register/" ∧ v = RegisterUserView) ∨
  (p = "login/" ∧ v = LoginUserView) ∨
  (p = "secure/" ∧ v = SecureApiView).
Proof.
  unfold resolve. intros H. apply fmap_Some in H as [u [H ->]].
  apply head_Some_elem_of, list_elem_of_filter in H as [Hp H].
  unfold urlpatterns in H. rewrite !elem_of_cons in H.
  destruct H as [->|[->|[->|H]]]; [| | |by apply elem_of_nil in H];
    cbn [view route] in *; auto.
Qed.

Lemma resolve_secure : resolve "secure/" = Some SecureApiView.
Proof. reflexivity. Qed.

(** The world a served request leaves is the one before, or the one the
    registration or the login handler leaves. *)
Lemma serve_world (request : Request) (p : prog Response) (w : World) :
  serve request = Some p →
  world (run p w) = w ∨
  world (run p w) = world (run (RegisterUserView_post request) w) ∨
  world (run p w) = world (run (LoginUserView_post request) w).
Proof.
  unfold serve. intros H. apply fmap_Some in H as [v [Hv ->]].
  rewrite run_dispatch. cbn zeta.
  apply resolve_route in Hv as [[_ ->]|[[_ ->]|[_ ->]]];
    destruct (authenticate _ _ _); cbn [world]; auto;
    destruct (check_permissions _ _); cbn [world]; auto;
    destruct (method request); cbn [handler get post world]; auto.
Qed.

(** ** Case analyses of the two handlers *)

Lemma register_cases (w : World) (request : Request) :
  run (RegisterUserView_post request) w =
    mkOutcome All_fields_are_required w [] ∨
  (∃ name, given (data request !! "username") = Some name ∧
           (name ∈ username <$> users w) ∧
           run (RegisterUserView_post request) w =
             mkOutcome Username_already_taken w
                       [Called (User_objects_filter name)]) ∨
  (∃ name pw mail,
     given (data request !! "username") = Some name ∧
     given (data request !! "password") = Some pw ∧
     given (data request !! "email") = Some mail ∧
     (name ∉ username <$> users w) ∧
     (normalize_username name ∈ username <$> users w) ∧
     run (RegisterUserView_post request) w =
       mkOutcome (server_error IntegrityError) (tick w)
         [ Called (User_objects_filter name);
           Called (User_objects_create_user name pw mail) ]) ∨
  (∃ name pw mail,
     given (data request !! "username") = Some name ∧
     given (data request !! "password") = Some pw ∧
     given (data request !! "email") = Some mail ∧
     (name ∉ username <$> users w) ∧
     (normalize_username name ∉ username <$> users w) ∧
     run (RegisterUserView_post request) w =
       mkOutcome User_created_successfully
         (mkWorld
            (users w ++
             [mkUser (next_id (users w)) (normalize_username name)
                     (make_password (instant w) pw) (normalize_email mail)])
            (logs w) (S (instant w)))
         [ Called (User_objects_filter name);
           Called (User_objects_create_user name pw mail);
           Called (User_save
                     (mkUser (next_id (users w)) (normalize_username name)
                             (make_password (instant w) pw)
                             (normalize_email mail))) ]).
Proof.
  destruct (given (data request !! "username")) as [name|] eqn:Hu;
    [|left; apply run_register_invalid; auto].
  destruct (given (data request !! "password")) as [pw|] eqn:Hp;
    [|left; apply run_register_invalid; auto].
  destruct (given (data request !! "email")) as [mail|] eqn:He;
    [|left; apply run_register_invalid; auto].
  right. destruct (decide (name ∈ username <$> users w)) as [Hin|Hin].
  { left. exists name. split; [done|]. split; [done|].
    by apply run_register_taken with pw mail. }
  right.
  destruct (decide (normalize_username name ∈ username <$> users w))
    as [Hnorm|Hnorm].
  - left. exists name, pw, mail. repeat split; [done..|].
    by apply run_register_duplicate.
  - right. exists name, pw, mail. repeat split; [done..|].
    by apply run_register_created.
Qed.

Lemma login_cases (w : World) (request : Request) :
  run (LoginUserView_post request) w =
    mkOutcome Both_username_and_password_are_required w [] ∨
  ∃ name pw,
    given (data request !! "username") = Some name ∧
    given (data request !! "password") = Some pw ∧
    (((name ∉ username <$> users w) ∧
      run (LoginUserView_post request) w =
        mkOutcome Invalid_credentials (add_log (attempt name) w)
          [ Called (Logger_info ("Attempting login for " +:+ name));
            Called (User_objects_filter name) ]) ∨
     (∃ user, first (filter_username name (users w)) = Some user ∧
              check_password pw (password user) = false ∧
              run (LoginUserView_post request) w =
                mkOutcome Invalid_credentials (add_log (attempt name) w)
                  [ Called (Logger_info ("Attempting login for " +:+ name));
                    Called (User_objects_filter name);
                    Called (User_check_password user pw) ]) ∨
     (∃ user, first (filter_username name (users w)) = Some user ∧
              check_password pw (password user) = true ∧
              let user' := checked_user (instant w) pw user in
              let w' := checked_world pw user (add_log (attempt name) w) in
              run (LoginUserView_post request) w =
                mkOutcome
                  (mkResponse
                     {[ "access_token" :=
                          token_str (access_token (S (instant w'))
                                       (for_user (instant w') user')) ]}
                     HTTP_200_OK)
                  (tick (tick w'))
                  [ Called (Logger_info ("Attempting login for " +:+ name));
                    Called (User_objects_filter name);
                    Called (User_check_password user pw);
                    Called (RefreshToken_for_user user');
                    Called (Refresh_access_token
                              (for_user (instant w') user')) ])).
Proof.
  destruct (given (data request !! "username")) as [name|] eqn:Hu;
    [|left; apply run_login_invalid; auto].
  destruct (given (data request !! "password")) as [pw|] eqn:Hp;
    [|left; apply run_login_invalid; auto].
  right. exists name, pw. split; [done|]. split; [done|].
  destruct (first (filter_username name (users w))) as [user|] eqn:Hf.
  - right. rewrite (run_login_found w request name pw user) by done.
    destruct (check_password pw (password user)) eqn:Hc.
    + right. by exists user.
    + left. by exists user.
  - left. apply first_None in Hf. split; [done|].
    by apply run_login_unknown with pw.
Qed.

(** ** What the handlers do to the log and to the user table *)

Lemma register_logs (w : World) (request : Request) :
  logs (world (run (RegisterUserView_post request) w)) = logs w.
Proof.
  destruct (register_cases w request)
    as [->|[(name & _ & _ & ->)
           |[(name & pw & mail & _ & _ & _ & _ & _ & ->)
            |(name & pw & mail & _ & _ & _ & _ & _ & ->)]]]; done.
Qed.

Lemma login_logs (w : World) (request : Request) :
  logs (world (run (LoginUserView_post request) w)) =
    logs w ++
    match given (data request !! "username"),
          given (data request !! "password") with
    | Some name, Some _ => [attempt name]
    | _, _ => []
    end.
Proof.
  destruct (given (data request !! "username")) as [name|] eqn:Hu;
    [|by rewrite run_login_invalid, app_nil_r; auto].
  destruct (given (data request !! "password")) as [pw|] eqn:Hp;
    [|by rewrite run_login_invalid, app_nil_r; auto].
  destruct (first (filter_username name (users w))) as [user|] eqn:Hf.
  - rewrite (run_login_found w request name pw user) by done.
    destruct (check_password pw (password user)); [|done].
    cbn [world tick logs]. by rewrite checked_world_logs.
  - apply first_None in Hf.
    by rewrite (run_login_unknown w request name pw).
Qed.

(** The login handler keeps every row, with its key, name and contact. *)
Lemma login_users (w : World) (request : Request) :
  Forall2 same_identity (users w)
          (users (world (run (LoginUserView_post request) w))).
Proof.
  destruct (login_cases w request)
    as [->|(name & pw & _ & _ &
             [[_ ->]|[(user & _ & _ & ->)|(user & _ & _ & H)]])];
    try apply same_identity_refl.
  cbv zeta in H. rewrite H. cbn [world tick users].
  rewrite checked_world_add_log. apply checked_world_users.
Qed.

(** ** The claims on registration *)

(** C3. A registration request in which the name, the secret or the
    contact is absent or empty is answered 400 "All fields are required";
    no call reaches the store, so no record is created and the world is
    the one before. *)
Theorem register_missing_field (w : World) (request : Request) :
  absent_or_empty (data request !! "username") ∨
  absent_or_empty (data request !! "password") ∨
  absent_or_empty (data request !! "email") →
  run (RegisterUserView_post request) w =
    mkOutcome
      (mkResponse {[ "error" := "All fields are required" ]} 400) w [].
Proof.
  rewrite <- !given_None. apply run_register_invalid.
Qed.

(** C6, where the code falls short of it.  A registration request with
    the three fields present and non-empty, under a name the store does
    not hold but whose normal form it holds, passes the lookup of line
    23, which compares the name as submitted; [create_user] then
    normalises the name and the insert raises: the caller gets 500 and
    no row is created. *)
Theorem register_normalised_duplicate (w : World) (request : Request)
    (name pw mail : string) :
  data request !! "username" = Some name → name ≠ "" →
  data request !! "password" = Some pw → pw ≠ "" →
  data request !! "email" = Some mail → mail ≠ "" →
  name ∉ username <$> users w →
  normalize_username name ∈ username <$> users w →
  let o := run (RegisterUserView_post request) w in
  status_code (result o) = 500 ∧
  users (world o) = users w ∧
  trace o = [ Called (User_objects_filter name);
              Called (User_objects_create_user name pw mail) ].
Proof.
  intros Hu Hu' Hp Hp' He He' Hin Hnorm o. subst o.
  by rewrite (run_register_duplicate w request name pw mail);
    try (by apply given_Some).
Qed.

(** C2, as amended.  A registration request with the three fields present
    and non-empty whose name the store already holds is answered 400
    "Username already taken" after the one lookup, and the world is the
    one before.  Registering twice a new name that is in normal form (the
    second request may carry another secret and contact) answers 201 and
    then 400 "Username already taken", and leaves exactly one row of that
    name. *)
Theorem register_same_name_twice (w : World) (request again : Request)
    (name pw mail pw' mail' : string) :
  data request !! "username" = Some name → name ≠ "" →
  data request !! "password" = Some pw → pw ≠ "" →
  data request !! "email" = Some mail → mail ≠ "" →
  data again !! "username" = Some name →
  data again !! "password" = Some pw' → pw' ≠ "" →
  data again !! "email" = Some mail' → mail' ≠ "" →
  (name ∈ username <$> users w →
   run (RegisterUserView_post request) w =
     mkOutcome
       (mkResponse {[ "error" := "Username already taken" ]} 400) w
       [Called (User_objects_filter name)]) ∧
  (name ∉ username <$> users w → normalize_username name = name →
   let o1 := run (RegisterUserView_post request) w in
   let o2 := run (RegisterUserView_post again) (world o1) in
   status_code (result o1) = 201 ∧
   result o2 = mkResponse {[ "error" := "Username already taken" ]} 400 ∧
   world o2 = world o1 ∧
   length (filter_username name (users (world o2))) = 1).
Proof.
  intros Hu Hu' Hp Hp' He He' Hu2 Hp2 Hp2' He2 He2'.
  assert (given (data request !! "username") = Some name)
    by by apply given_Some.
  assert (given (data request !! "password") = Some pw)
    by by apply given_Some.
  assert (given (data request !! "email") = Some mail)
    by by apply given_Some.
  assert (given (data again !! "username") = Some name)
    by by apply given_Some.
  assert (given (data again !! "password") = Some pw')
    by by apply given_Some.
  assert (given (data again !! "email") = Some mail')
    by by apply given_Some.
  split; [intros Hin|intros Hin Hnorm].
  - by apply run_register_taken with pw mail.
  - intros o1 o2. subst o2 o1.
    rewrite (run_register_created w request name pw mail);
      [|done..|by rewrite Hnorm].
    cbn [world result]. rewrite Hnorm.
    rewrite (run_register_taken _ again name pw' mail'); try done.
    + cbn [world result users]. repeat split.
      unfold filter_username. rewrite filter_app.
      apply filter_username_nil in Hin. unfold filter_username in Hin.
      rewrite Hin. simpl. rewrite filter_cons, decide_True by done.
      reflexivity.
    + cbn [users]. rewrite fmap_app. apply elem_of_app. right.
      apply list_elem_of_singleton. reflexivity.
Qed.

(** ** The claims on login *)

(** C9. A login request in which the username or the password is absent
    is answered 400 "Both username and password are required" without a
    single collaborator call: neither the store nor the issuer is
    consulted. *)
Theorem login_absent_field (w : World) (request : Request) :
  data request !! "username" = None ∨ data request !! "password" = None →
  let o := run (LoginUserView_post request) w in
  o = mkOutcome
        (mkResponse
           {[ "error" := "Both username and password are required" ]} 400)
        w [] ∧
  forallb (λ c, negb (store_call c || issuer_call c)) (trace o) = true.
Proof.
  intros H o. subst o. rewrite run_login_invalid; [done|].
  rewrite !given_None. unfold absent_or_empty. tauto.
Qed.

(** C10. A login request in which the username or the password is the
    empty string is answered with the validation error 400 "Both username
    and password are required", which is not the authentication error;
    the store is not looked up and nothing is logged. *)
Theorem login_empty_field (w : World) (request : Request) :
  data request !! "username" = Some "" ∨
  data request !! "password" = Some "" →
  let o := run (LoginUserView_post request) w in
  result o =
    mkResponse
      {[ "error" := "Both username and password are required" ]} 400 ∧
  result o ≠ Invalid_credentials ∧
  forallb (λ c, negb (store_call c || logger_call c)) (trace o) = true ∧
  world o = w.
Proof.
  intros H o. subst o. rewrite run_login_invalid.
  - repeat split. cbn [result]. intros Heq.
    apply (f_equal (λ r, response_data r !! "error")) in Heq.
    by vm_compute in Heq.
  - rewrite !given_None. unfold absent_or_empty. tauto.
Qed.

(** C1. For a login request that carries both fields, the response when
    no row has the name and the response when rows have it but the secret
    does not verify against the stored hash are one and the same, with
    status 400; when both fields are non-empty it is 400 "Invalid
    credentials", whatever the name and the secret are. *)
Theorem login_failures_indistinguishable (w1 w2 : World) (request : Request)
    (name pw : string) :
  data request !! "username" = Some name →
  data request !! "password" = Some pw →
  name ∉ username <$> users w1 →
  name ∈ username <$> users w2 →
  (∀ user, user ∈ users w2 → username user = name →
           check_password pw (password user) = false) →
  let r1 := result (run (LoginUserView_post request) w1) in
  let r2 := result (run (LoginUserView_post request) w2) in
  r1 = r2 ∧ status_code r1 = 400 ∧
  (name ≠ "" → pw ≠ "" →
   r1 = mkResponse {[ "error" := "Invalid credentials" ]} 400).
Proof.
  intros Hu Hp Hno Hin Hwrong r1 r2. subst r1 r2.
  destruct (given (data request !! "username")) as [name'|] eqn:Hgu.
  2:{ rewrite !run_login_invalid by auto. repeat split. intros Hname _.
      apply given_None in Hgu as [Hgu|Hgu]; congruence. }
  destruct (given (data request !! "password")) as [pw'|] eqn:Hgp.
  2:{ rewrite !run_login_invalid by auto. repeat split. intros _ Hpw.
      apply given_None in Hgp as [Hgp|Hgp]; congruence. }
  apply given_Some in Hgu as Hname. apply given_Some in Hgp as Hpw.
  destruct Hname as [Hname _], Hpw as [Hpw _].
  assert (name' = name) as -> by congruence.
  assert (pw' = pw) as -> by congruence.
  rewrite (run_login_unknown w1 request name pw) by done.
  destruct (first (filter_username name (users w2))) as [user|] eqn:Hf.
  - rewrite (run_login_found w2 request name pw user) by done.
    apply first_elem_of in Hf as [Hf1 Hf2].
    by rewrite (Hwrong user Hf1 Hf2).
  - by apply first_None in Hf.
Qed.

(** C4, as amended.  A login request whose two fields are present and
    non-empty, with the name of a stored row (the row the lookup by name
    finds) and a secret that verifies against the hash of that row, makes
    the issuer mint a refresh token for that row and derive an access
    token from it, and is answered 200 with that token under
    "access_token".  The row is the object as the check of the secret
    left it: with a fresh hash, saved to the table, when the stored one
    was out of date. *)
Theorem login_mints_token (w : World) (request : Request) (name pw : string)
    (user : User) :
  data request !! "username" = Some name → name ≠ "" →
  data request !! "password" = Some pw → pw ≠ "" →
  first (filter_username name (users w)) = Some user →
  check_password pw (password user) = true →
  let user' := checked_user (instant w) pw user in
  let w' := checked_world pw user w in
  let refresh := for_user (instant w') user' in
  let access := access_token (S (instant w')) refresh in
  same_identity user user' ∧
  run (LoginUserView_post request) w =
    mkOutcome
      (mkResponse {[ "access_token" := token_str access ]} 200)
      (mkWorld (users w')
               (logs w ++ [mkLog INFO ("Attempting login for " +:+ name)])
               (S (S (instant w'))))
      [ Called (Logger_info ("Attempting login for " +:+ name));
        Called (User_objects_filter name);
        Called (User_check_password user pw);
        Called (RefreshToken_for_user user');
        Called (Refresh_access_token refresh) ].
Proof.
  intros Hu Hu' Hp Hp' Hf Hcheck user' w' refresh access.
  split; [apply checked_user_identity|].
  rewrite (run_login_found w request name pw user), Hcheck;
    [|by apply given_Some..|exact Hf].
  cbv zeta. rewrite checked_world_add_log.
  subst access refresh user' w'. unfold add_log, tick.
  cbn [users logs instant]. by rewrite checked_world_logs.
Qed.

(** C8, as amended.  A login request logs one record, the attempted
    username at level INFO, exactly when both fields are present and
    non-empty, and logs nothing when a field is absent or empty; the
    registration handler logs nothing; and whatever request is served,
    the log is afterwards the one before or the one the login handler
    leaves. *)
Theorem only_login_attempts_are_logged (w : World) (request : Request) :
  logs (world (run (LoginUserView_post request) w)) =
    logs w ++
    match given (data request !! "username"),
          given (data request !! "password") with
    | Some name, Some _ => [mkLog INFO ("Attempting login for " +:+ name)]
    | _, _ => []
    end ∧
  logs (world (run (RegisterUserView_post request) w)) = logs w ∧
  ∀ p, serve request = Some p →
       logs (world (run p w)) = logs w ∨
       logs (world (run p w)) =
         logs (world (run (LoginUserView_post request) w)).
Proof.
  split; [apply login_logs|]. split; [apply register_logs|].
  intros p Hp.
  destruct (serve_world request p w Hp) as [->|[-> | ->]]; auto.
  left. apply register_logs.
Qed.

(** ** The claim on the guarded endpoint *)

(** C5. A GET request to secure/ is routed to a view that first has the
    presented token validated.  When the token is accepted the response
    is 200 with the fixed body and nothing else happened.  When it is not
    (none was presented, or it was refused) the response is the
    framework's authentication failure, 401 or 403, the world is the one
    before, and the outcome is the same whatever the handler body is: the
    body is not run. *)
Theorem secure_endpoint_guard (w : World) (request : Request) :
  path request = "secure/" → method request = GET →
  ∃ p, serve request = Some p ∧
    match authenticate (instant w) (users w) (authorization request) with
    | Authenticated _ =>
        run p w =
          mkOutcome
            (mkResponse
               {[ "message" := "You have access to this secure endpoint!" ]}
               200)
            w [Called (Perform_authentication (authorization request))]
    | _ =>
        (status_code (result (run p w)) = 401 ∨
         status_code (result (run p w)) = 403) ∧
        world (run p w) = w ∧
        trace (run p w) =
          [Called (Perform_authentication (authorization request))] ∧
        ∀ body : Request → prog Response,
          run (dispatch (mkView [IsAuthenticated] (Some body) None) request) w
          = run p w
    end.
Proof.
  intros Hpath Hmethod. exists (dispatch SecureApiView request). split.
  { unfold serve. by rewrite Hpath, resolve_secure. }
  rewrite run_dispatch. cbn zeta.
  destruct (authenticate (instant w) (users w) (authorization request))
    as [user| |detail] eqn:Ha.
  - cbn [check_permissions SecureApiView permission_classes forallb
           has_permission andb handler]. by rewrite Hmethod.
  - cbn [check_permissions SecureApiView permission_classes forallb
           has_permission andb result world trace handle_exception
           status_code].
    repeat split.
    + destruct authenticate_header; auto.
    + intros body. rewrite run_dispatch. cbn zeta. by rewrite Ha.
  - cbn [result world trace handle_exception status_code].
    repeat split.
    + destruct authenticate_header; auto.
    + intros body. rewrite run_dispatch. cbn zeta. by rewrite Ha.
Qed.

End Properties.

(** * The theorems at work on the small instance *)

Lemma register_missing_field_witness :
  run (C := Demo.collaborators)
      (RegisterUserView_post Demo.register_no_email) Demo.empty_world =
    mkOutcome (mkResponse {[ "error" := "All fields are required" ]} 400)
              Demo.empty_world [].
Proof.
  apply register_missing_field. right; right; left. by vm_compute.
Defined.

Lemma register_normalised_duplicate_witness :
  let o := run (C := Demo.collaborators)
             (RegisterUserView_post Demo.register_wide_alice)
             Demo.alice_world in
  status_code (result o) = 500 ∧
  users (world o) = users Demo.alice_world ∧
  trace o =
    [ Called (User_objects_filter "ａlice");
      Called (User_objects_create_user "ａlice" "pw9" "w@X.COM") ].
Proof.
  apply (register_normalised_duplicate (C := Demo.collaborators)
           Demo.alice_world Demo.register_wide_alice
           "ａlice" "pw9" "w@X.COM");
    try (by vm_compute).
  - simpl. rewrite list_elem_of_singleton. discriminate.
  - vm_compute. apply list_elem_of_singleton. reflexivity.
Defined.

Lemma register_same_name_twice_witness :
  length
    (filter_username "alice"
       (users
          (world
             (run (C := Demo.collaborators)
                (RegisterUserView_post Demo.register_alice)
                (world
                   (run (C := Demo.collaborators)
                      (RegisterUserView_post Demo.register_alice)
                      Demo.empty_world)))))) = 1.
Proof.
  apply (register_same_name_twice (C := Demo.collaborators) Demo.empty_world
           Demo.register_alice Demo.register_alice
           "alice" "pw1" "a@x.com" "pw1" "a@x.com");
    try (by vm_compute).
  simpl. apply not_elem_of_nil.
Defined.

(** C2 as worded fails: with alice stored, a request that carries her name
    and nothing else is answered "All fields are required", not "Username
    already taken". *)
Lemma register_name_only_is_not_a_conflict :
  run (C := Demo.collaborators)
      (RegisterUserView_post Demo.register_name_only) Demo.alice_world =
    mkOutcome (mkResponse {[ "error" := "All fields are required" ]} 400)
              Demo.alice_world [] ∧
  ¬ every_existing_name_conflicts (C := Demo.collaborators).
Proof.
  assert (run (C := Demo.collaborators)
            (RegisterUserView_post Demo.register_name_only) Demo.alice_world =
          mkOutcome
            (mkResponse {[ "error" := "All fields are required" ]} 400)
            Demo.alice_world []) as Hrun by by vm_compute.
  split; [exact Hrun|]. intros Hall.
  specialize (Hall Demo.alice_world Demo.register_name_only "alice").
  rewrite Hrun in Hall. cbn [result] in Hall.
  assert (Heq := Hall ltac:(by vm_compute)
                      ltac:(apply list_elem_of_singleton; reflexivity)).
  apply (f_equal (λ r, response_data r !! "error")) in Heq.
  by vm_compute in Heq.
Qed.

Lemma login_absent_field_witness :
  run (C := Demo.collaborators)
      (LoginUserView_post Demo.login_no_password) Demo.alice_world =
    mkOutcome
      (mkResponse
         {[ "error" := "Both username and password are required" ]} 400)
      Demo.alice_world [].
Proof.
  apply (login_absent_field (C := Demo.collaborators) Demo.alice_world
           Demo.login_no_password).
  right. by vm_compute.
Defined.

Lemma login_empty_field_witness :
  world (run (C := Demo.collaborators)
           (LoginUserView_post Demo.login_empty_password) Demo.alice_world) =
    Demo.alice_world.
Proof.
  apply (login_empty_field (C := Demo.collaborators) Demo.alice_world
           Demo.login_empty_password).
  right. by vm_compute.
Defined.

Lemma login_failures_indistinguishable_witness :
  result (run (C := Demo.collaborators)
            (LoginUserView_post Demo.login_alice_wrong) Demo.empty_world) =
  result (run (C := Demo.collaborators)
            (LoginUserView_post Demo.login_alice_wrong) Demo.alice_world).
Proof.
  apply (login_failures_indistinguishable (C := Demo.collaborators)
           Demo.empty_world Demo.alice_world Demo.login_alice_wrong
           "alice" "wrong"); try (by vm_compute).
  - simpl. apply not_elem_of_nil.
  - simpl. apply list_elem_of_singleton. reflexivity.
  - intros user Hin _. apply list_elem_of_singleton in Hin. subst user.
    by vm_compute.
Defined.

(** C4 as worded fails: on a table whose row for alice has a hash that
    verifies the empty secret, the login request that carries her name
    and an empty password is answered by the validation error. *)
Lemma login_blank_secret_is_not_minted :
  result (run (C := Demo.collaborators)
            (LoginUserView_post Demo.login_empty_password)
            Demo.blank_world) =
    mkResponse
      {[ "error" := "Both username and password are required" ]} 400 ∧
  ¬ every_matching_login_mints (C := Demo.collaborators).
Proof.
  assert (result (run (C := Demo.collaborators)
                    (LoginUserView_post Demo.login_empty_password)
                    Demo.blank_world) =
          mkResponse
            {[ "error" := "Both username and password are required" ]} 400)
    as Hrun by by vm_compute.
  split; [exact Hrun|]. intros Hall.
  specialize (Hall Demo.blank_world Demo.login_empty_password "alice" ""
                   (mkUser 1 "alice" (Demo.hash "") "a@x.com")).
  rewrite Hrun in Hall. cbn [status_code] in Hall.
  assert (Heq := Hall ltac:(by vm_compute) ltac:(by vm_compute)
                      ltac:(apply list_elem_of_singleton; reflexivity)
                      ltac:(reflexivity) ltac:(by vm_compute)).
  discriminate Heq.
Qed.

(** The login of alice on the table that holds her hash in the older
    scheme: she gets a token and her row the hash of the current one. *)
Lemma login_mints_token_witness :
  result (run (C := Demo.collaborators)
            (LoginUserView_post Demo.login_alice) Demo.old_world) =
    mkResponse {[ "access_token" := "3" ]} 200 ∧
  users (world (run (C := Demo.collaborators)
                  (LoginUserView_post Demo.login_alice) Demo.old_world)) =
    [Demo.alice].
Proof.
  assert (H := proj2 (login_mints_token (C := Demo.collaborators)
                        Demo.old_world Demo.login_alice "alice" "pw1"
                        Demo.old_alice
                        ltac:(by vm_compute) ltac:(done)
                        ltac:(by vm_compute) ltac:(done)
                        ltac:(by vm_compute) ltac:(by vm_compute))).
  rewrite H. by vm_compute.
Defined.

(** C8 as worded fails: the login request that names bob and carries no
    password is answered before anything is logged. *)
Lemma login_without_password_is_not_logged :
  logs (world (run (C := Demo.collaborators)
                 (LoginUserView_post Demo.login_no_password)
                 Demo.empty_world)) = [] ∧
  ¬ every_login_attempt_logged (C := Demo.collaborators).
Proof.
  assert (logs (world (run (C := Demo.collaborators)
                         (LoginUserView_post Demo.login_no_password)
                         Demo.empty_world)) = []) as Hrun by by vm_compute.
  split; [exact Hrun|]. intros Hall.
  specialize (Hall Demo.empty_world Demo.login_no_password "bob"
                   ltac:(by vm_compute)).
  rewrite Hrun in Hall. discriminate Hall.
Qed.

Lemma only_login_attempts_are_logged_witness :
  logs (world (run (C := Demo.collaborators)
                 (LoginUserView_post Demo.login_alice_wrong)
                 Demo.alice_world)) =
    [mkLog INFO "Attempting login for alice"].
Proof.
  rewrite (proj1 (only_login_attempts_are_logged (C := Demo.collaborators)
                    Demo.alice_world Demo.login_alice_wrong)).
  by vm_compute.
Defined.

Lemma secure_endpoint_guard_witness :
  ∃ p, serve (C := Demo.collaborators) (Demo.secure_with (Some "Bearer 2"))
         = Some p ∧
       run p Demo.alice_logged_in_world =
         mkOutcome
           (mkResponse
              {[ "message" := "You have access to this secure endpoint!" ]}
              200)
           Demo.alice_logged_in_world
           [Called (Perform_authentication (Some "Bearer 2"))].
Proof.
  destruct (secure_endpoint_guard (C := Demo.collaborators)
              Demo.alice_logged_in_world (Demo.secure_with (Some "Bearer 2"))
              eq_refl eq_refl) as [p [Hp H]].
  exists p. split; [exact Hp|]. exact H.
Defined.

(** The scenario of the specification, served through the routes:
    register alice, log in with a wrong secret, log in with the right one,
    present the token at secure/ (and present none, or a stale one). *)
Example scenario :
  Demo.served Demo.register_alice Demo.empty_world =
    Some (mkResponse {[ "message" := "User created successfully" ]} 201,
          Demo.alice_world) ∧
  Demo.served Demo.login_alice_wrong Demo.alice_world =
    Some (mkResponse {[ "error" := "Invalid credentials" ]} 400,
          Demo.alice_failed_world) ∧
  Demo.served Demo.login_alice Demo.alice_failed_world =
    Some (mkResponse {[ "access_token" := "2" ]} 200,
          Demo.alice_logged_in_world) ∧
  Demo.served (Demo.secure_with (Some "Bearer 2")) Demo.alice_logged_in_world =
    Some (mkResponse
            {[ "message" := "You have access to this secure endpoint!" ]} 200,
          Demo.alice_logged_in_world) ∧
  Demo.served (Demo.secure_with None) Demo.alice_logged_in_world =
    Some (mkResponse
            {[ "detail" := "Authentication credentials were not provided." ]}
            401,
          Demo.alice_logged_in_world) ∧
  Demo.served (Demo.secure_with (Some "Bearer 1")) Demo.alice_logged_in_world =
    Some (mkResponse {[ "detail" := "Token is invalid or expired" ]} 401,
          Demo.alice_logged_in_world).
Proof. repeat split; by vm_compute. Qed.

(** * More on the endpoints *)

Section Endpoints.
Context `{C : Collaborators}.

(** A row appended under a name the table did not hold is the one the
    lookup of that name finds. *)
Lemma filter_username_appended (name : string) (r : User)
    (us : list User) :
  username r = name → name ∉ username <$> us →
  filter_username name (us ++ [r]) = [r].
Proof.
  intros Hr Hin. apply filter_username_nil in Hin.
  unfold filter_username in *.
  rewrite filter_app, Hin, filter_cons, decide_True by done. reflexivity.
Qed.

(** ** The handlers, whatever the request *)

(** X3. Whatever the request and the user table, the registration handler
    does one of three things.  It answers 201 and appends one row, which
    carries the normal forms of the submitted name and contact, under a
    name the table did not hold; or it answers 400 and leaves the world
    as it was; or, when the name as submitted is not stored but its
    normal form is, the insert raises: it answers 500 and the user table
    is as it was.  It never logs and never calls the issuer. *)
Theorem register_creates_or_leaves (w : World) (request : Request) :
  let o := run (RegisterUserView_post request) w in
  ((status_code (result o) = 201 ∧
    ∃ name mail r,
      data request !! "username" = Some name ∧
      data request !! "email" = Some mail ∧
      username r = normalize_username name ∧
      email r = normalize_email mail ∧
      users (world o) = users w ++ [r] ∧
      username r ∉ username <$> users w) ∨
   (status_code (result o) = 400 ∧ world o = w) ∨
   (status_code (result o) = 500 ∧ users (world o) = users w ∧
    ∃ name, data request !! "username" = Some name ∧
            (name ∉ username <$> users w) ∧
            normalize_username name ∈ username <$> users w)) ∧
  logs (world o) = logs w ∧
  forallb (λ c, negb (issuer_call c || logger_call c)) (trace o) = true.
Proof.
  intros o. subst o.
  destruct (register_cases w request)
    as [->|[(name & Hu & Hin & ->)
           |[(name & pw & mail & Hu & Hp & He & Hin & Hn & ->)
            |(name & pw & mail & Hu & Hp & He & Hin & Hn & ->)]]].
  - split; [right; left|]; done.
  - split; [right; left|]; done.
  - split; [right; right|done]. repeat split.
    exists name. apply given_Some in Hu as [Hu _]. by repeat split.
  - split; [left|done]. split; [done|].
    exists name, mail. eexists. cbn [world users username email].
    apply given_Some in Hu as [Hu _]. apply given_Some in He as [He _].
    by repeat split.
Qed.

(** X4. Whatever the request and the user table, the login handler adds
    no row and removes none, and leaves the key, the name and the contact
    of every row as they were; it answers 200 or 400, and on 400 the user
    table is the one before and the issuer was not called. *)
Theorem login_keeps_rows (w : World) (request : Request) :
  let o := run (LoginUserView_post request) w in
  Forall2 same_identity (users w) (users (world o)) ∧
  (status_code (result o) = 200 ∨
   (status_code (result o) = 400 ∧
    users (world o) = users w ∧
    forallb (λ c, negb (issuer_call c)) (trace o) = true)).
Proof.
  intros o. subst o. split; [apply login_users|].
  destruct (login_cases w request)
    as [->|(name & pw & _ & _ &
             [[_ ->]|[(user & _ & _ & ->)|(user & _ & _ & H)]])];
    [right..|left]; try done.
  cbv zeta in H. by rewrite H.
Qed.

(** X5. The secret does not reach the log: two login requests with the
    same username field, whose password fields are both non-empty or both
    absent or empty, leave the same log. *)
Theorem login_log_ignores_secret (w : World) (request request' : Request) :
  data request !! "username" = data request' !! "username" →
  (absent_or_empty (data request !! "password") ↔
   absent_or_empty (data request' !! "password")) →
  logs (world (run (LoginUserView_post request) w)) =
  logs (world (run (LoginUserView_post request') w)).
Proof.
  intros Hu Hp. rewrite !login_logs, <- Hu.
  rewrite <- !given_None in Hp.
  destruct (given (data request !! "username")); [|done].
  destruct (given (data request !! "password")),
           (given (data request' !! "password")); try done.
  - discriminate (proj2 Hp eq_refl).
  - discriminate (proj1 Hp eq_refl).
Qed.

(** X12. No token without credentials: when the login handler answers
    200, the request carried a non-empty name and a non-empty secret, a
    row of the user table has that name, the secret verifies against the
    hash of that row, and the token returned was minted for that row, as
    the check of the secret left it. *)
Theorem login_token_needs_credentials (w : World) (request : Request) :
  status_code (result (run (LoginUserView_post request) w)) = 200 →
  ∃ name pw user,
    data request !! "username" = Some name ∧ name ≠ "" ∧
    data request !! "password" = Some pw ∧ pw ≠ "" ∧
    user ∈ users w ∧ username user = name ∧
    check_password pw (password user) = true ∧
    let user' := checked_user (instant w) pw user in
    let w' := checked_world pw user w in
    same_identity user user' ∧
    result (run (LoginUserView_post request) w) =
      mkResponse
        {[ "access_token" :=
             token_str (access_token (S (instant w'))
                          (for_user (instant w') user')) ]} 200.
Proof.
  destruct (login_cases w request)
    as [->|(name & pw & Hu & Hp &
             [[_ ->]|[(user & _ & _ & ->)|(user & Hf & Hc & H)]])];
    cbn [result status_code]; try discriminate.
  intros _. exists name, pw, user.
  apply given_Some in Hu as [Hu Hu']. apply given_Some in Hp as [Hp Hp'].
  apply first_elem_of in Hf as [Hin Hname].
  repeat split; try done; [apply checked_user_identity..|].
  cbv zeta in H. rewrite H, checked_world_add_log. done.
Qed.

(** ** Registration followed by another request *)

(** X6. When the hasher verifies a secret against the hash it made of it,
    a login with the name and the secret of a registration that has just
    succeeded under a name in normal form is answered 200, with the
    access token minted for the row that registration created, as the
    check of the secret left it. *)
Theorem register_then_login (w : World) (request login : Request)
    (name pw mail : string) :
  check_password pw (make_password (instant w) pw) = true →
  data request !! "username" = Some name → name ≠ "" →
  data request !! "password" = Some pw → pw ≠ "" →
  data request !! "email" = Some mail → mail ≠ "" →
  name ∉ username <$> users w →
  normalize_username name = name →
  data login !! "username" = Some name →
  data login !! "password" = Some pw →
  let o1 := run (RegisterUserView_post request) w in
  let o2 := run (LoginUserView_post login) (world o1) in
  let r := mkUser (next_id (users w)) name
                  (make_password (instant w) pw) (normalize_email mail) in
  let r' := checked_user (S (instant w)) pw r in
  let w' := checked_world pw r (world o1) in
  status_code (result o1) = 201 ∧
  users (world o1) = users w ++ [r] ∧
  same_identity r r' ∧
  result o2 =
    mkResponse
      {[ "access_token" :=
           token_str (access_token (S (instant w'))
                        (for_user (instant w') r')) ]} 200.
Proof.
  intros Hhash Hu Hu' Hp Hp' He He' Hin Hnorm Hlu Hlp o1 o2 r r' w'.
  subst w' o2 o1.
  rewrite (run_register_created w request name pw mail);
    [|by apply given_Some..|done|by rewrite Hnorm].
  rewrite Hnorm. fold r. cbn [world result users].
  repeat split; [apply checked_user_identity..|].
  rewrite (run_login_found _ login name pw r);
    [|by apply given_Some..|].
  - cbn [password r instant]. rewrite Hhash. cbv zeta. cbn [result].
    by rewrite checked_world_add_log.
  - cbn [users].
    by rewrite (filter_username_appended name r (users w)).
Qed.

(** X7. When the hasher does not verify another secret against that hash,
    a login with the registered name and that other, non-empty secret is
    answered 400 "Invalid credentials", and the user table is the one
    the registration left. *)
Theorem register_then_wrong_secret (w : World) (request login : Request)
    (name pw mail pw' : string) :
  check_password pw' (make_password (instant w) pw) = false →
  data request !! "username" = Some name → name ≠ "" →
  data request !! "password" = Some pw → pw ≠ "" →
  data request !! "email" = Some mail → mail ≠ "" →
  name ∉ username <$> users w →
  data login !! "username" = Some name →
  data login !! "password" = Some pw' → pw' ≠ "" →
  let o1 := run (RegisterUserView_post request) w in
  let o2 := run (LoginUserView_post login) (world o1) in
  result o2 = mkResponse {[ "error" := "Invalid credentials" ]} 400 ∧
  users (world o2) = users (world o1).
Proof.
  intros Hhash Hu Hu' Hp Hp' He He' Hin Hlu Hlp Hlp' o1 o2. subst o2 o1.
  assert (given (data login !! "username") = Some name) as Hgu
    by by apply given_Some.
  assert (given (data login !! "password") = Some pw') as Hgp
    by by apply given_Some.
  destruct (decide (normalize_username name ∈ username <$> users w))
    as [Hn|Hn].
  { rewrite (run_register_duplicate w request name pw mail);
      [|by apply given_Some..|done|done].
    cbn [world]. by rewrite (run_login_unknown _ login name pw'). }
  rewrite (run_register_created w request name pw mail);
    [|by apply given_Some..|done|done].
  set (r := mkUser (next_id (users w)) (normalize_username name)
                   (make_password (instant w) pw) (normalize_email mail)).
  cbn [world].
  destruct (decide (normalize_username name = name)) as [Hnorm|Hnorm].
  - rewrite (run_login_found _ login name pw' r); [|done..|].
    + cbn [password r]. by rewrite Hhash.
    + cbn [users].
      by rewrite (filter_username_appended name r (users w)).
  - rewrite (run_login_unknown _ login name pw'); [done..|].
    cbn [users]. rewrite fmap_app, elem_of_app. cbn.
    rewrite list_elem_of_singleton. intros [?|?]; [done|]. by apply Hnorm.
Qed.

(** X11. After a registration that succeeded, a further well-formed
    registration is refused with "Username already taken" exactly when
    its name, as submitted, is the stored form of the one just registered
    or a name the table held before.  Otherwise, when the normal form of
    its name is one of these, the insert raises and it is answered 500
    with the table unchanged; and when not, it is answered 201 and its
    row comes last.  The contact is not compared: it may be one already
    stored. *)
Theorem register_then_register (w : World) (request other : Request)
    (name pw mail name' pw' mail' : string) :
  data request !! "username" = Some name → name ≠ "" →
  data request !! "password" = Some pw → pw ≠ "" →
  data request !! "email" = Some mail → mail ≠ "" →
  name ∉ username <$> users w →
  normalize_username name ∉ username <$> users w →
  data other !! "username" = Some name' → name' ≠ "" →
  data other !! "password" = Some pw' → pw' ≠ "" →
  data other !! "email" = Some mail' → mail' ≠ "" →
  let o1 := run (RegisterUserView_post request) w in
  let o2 := run (RegisterUserView_post other) (world o1) in
  let stored := normalize_username name in
  let stored' := normalize_username name' in
  status_code (result o1) = 201 ∧
  if decide (name' = stored ∨ name' ∈ username <$> users w)
  then result o2 = mkResponse {[ "error" := "Username already taken" ]} 400
       ∧ world o2 = world o1
  else if decide (stored' = stored ∨ stored' ∈ username <$> users w)
  then status_code (result o2) = 500
       ∧ users (world o2) = users (world o1)
  else status_code (result o2) = 201
       ∧ username <$> users (world o2) =
           (username <$> users w) ++ [stored; stored']
       ∧ email <$> users (world o2) =
           (email <$> users w) ++
           [normalize_email mail; normalize_email mail'].
Proof.
  intros Hu Hu' Hp Hp' He He' Hin Hn Hu2 Hu2' Hp2 Hp2' He2 He2'
         o1 o2 stored stored'.
  subst o2 o1.
  rewrite (run_register_created w request name pw mail);
    [|by apply given_Some..|done|done].
  cbn [world result]. split; [done|].
  assert (∀ x, x ∈ username <$>
                 users w ++ [mkUser (next_id (users w)) stored
                               (make_password (instant w) pw)
                               (normalize_email mail)]
               ↔ x = stored ∨ x ∈ username <$> users w) as Hmem.
  { intros x. rewrite fmap_app, elem_of_app. cbn.
    rewrite list_elem_of_singleton. tauto. }
  fold stored. case_decide as Hd; [|case_decide as Hd'].
  - rewrite (run_register_taken _ other name' pw' mail');
      try (by apply given_Some); [done|].
    cbn [users]. by apply Hmem.
  - rewrite (run_register_duplicate _ other name' pw' mail');
      try (by apply given_Some); [done|..].
    + cbn [users]. by rewrite Hmem.
    + cbn [users]. by apply Hmem.
  - rewrite (run_register_created _ other name' pw' mail');
      try (by apply given_Some).
    + cbn [result world users]. split; [done|].
      rewrite !fmap_app, <- !(assoc_L (++)). done.
    + cbn [users]. by rewrite Hmem.
    + cbn [users]. by rewrite Hmem.
Qed.

(** ** Routing and dispatch *)

(** X8. The route table sends register/ to the registration view, login/
    to the login view and secure/ to the guarded view, each behind the
    framework's dispatch, and a request with any other path reaches no
    view. *)
Theorem serve_known_paths (request : Request) :
  serve request =
    if decide (path request = "register/")
    then Some (dispatch RegisterUserView request)
    else if decide (path request = "login/")
    then Some (dispatch LoginUserView request)
    else if decide (path request = "secure/")
    then Some (dispatch SecureApiView request)
    else None.
Proof.
  unfold serve. destruct (resolve (path request)) as [v|] eqn:Hv.
  - apply resolve_route in Hv as [[-> ->]|[[-> ->]|[-> ->]]]; reflexivity.
  - repeat case_decide; try reflexivity;
      match goal with H : path request = _ |- _ => rewrite H in Hv end;
      discriminate Hv.
Qed.

(** X9. The registration and login views let callers through without a
    token: a POST whose authentication is not refused, be the caller
    anonymous or authenticated, gets the response and the world of the
    handler, and the calls made are the authentication followed by the
    handler's. *)
Theorem open_endpoints_run_the_handler (w : World) (request : Request)
    (h : Request → prog Response) :
  method request = POST →
  (∀ detail, authenticate (instant w) (users w) (authorization request)
             ≠ Refused detail) →
  (path request = "register/" ∧ h = RegisterUserView_post) ∨
  (path request = "login/" ∧ h = LoginUserView_post) →
  ∃ p, serve request = Some p ∧
       result (run p w) = result (run (h request) w) ∧
       world (run p w) = world (run (h request) w) ∧
       trace (run p w) =
         Called (Perform_authentication (authorization request))
           :: trace (run (h request) w).
Proof.
  intros Hm Hauth Hroute.
  assert (∃ v, resolve (path request) = Some v ∧
               permission_classes v = [AllowAny] ∧ post v = Some h)
    as (v & Hv & Hperm & Hpost).
  { destruct Hroute as [[-> ->]|[-> ->]]; by eexists. }
  exists (dispatch v request). split.
  { unfold serve. by rewrite Hv. }
  rewrite run_dispatch. cbn zeta. unfold check_permissions.
  rewrite Hperm, Hm. cbn [handler]. rewrite Hpost.
  destruct (authenticate (instant w) (users w) (authorization request))
    as [user| |detail] eqn:Ha; [done|done|].
  by destruct (Hauth detail).
Qed.

(** X10. A served request whose method the view defines no handler for
    runs none of the views' handlers: that is any method but POST at
    register/ and login/, and any but GET and HEAD, which the framework
    binds to get, at secure/.  The one call made is the authentication
    and the world is the one before.  The answer is the framework's: for
    OPTIONS the metadata with 200, or 401 or 403; for the other methods
    401, 403 or 405. *)
Theorem other_methods_run_no_handler (w : World) (request : Request)
    (p : prog Response) :
  serve request = Some p →
  (if decide (path request = "secure/")
   then method request ∉ [GET; HEAD] else method request ≠ POST) →
  world (run p w) = w ∧
  trace (run p w) =
    [Called (Perform_authentication (authorization request))] ∧
  status_code (result (run p w)) ∈
    (if decide (method request = OPTIONS)
     then [200; 401; 403] else [401; 403; 405]).
Proof.
  unfold serve. intros Hp Hm. apply fmap_Some in Hp as [v [Hv ->]].
  rewrite run_dispatch. cbn zeta.
  assert (handler v (method request) =
          if decide (method request = OPTIONS) then Some options else None)
    as ->.
  { apply resolve_route in Hv as [[Hpath ->]|[[Hpath ->]|[Hpath ->]]];
      rewrite Hpath in Hm; [rewrite decide_False in Hm by done..
                           |rewrite decide_True in Hm by done];
      destruct (method request); try done; set_solver. }
  assert (∀ exc, status_code (handle_exception exc) ∈ [401; 403; 405])
    as Hstatus.
  { intros exc. unfold handle_exception. cbn [status_code].
    destruct exc, authenticate_header; set_solver. }
  assert (∀ exc, (∀ m, exc ≠ MethodNotAllowed m) →
                 status_code (handle_exception exc) ∈ [200; 401; 403])
    as Hstatus'.
  { intros exc Hexc. unfold handle_exception. cbn [status_code].
    destruct exc, authenticate_header; try set_solver; by destruct (Hexc m). }
  destruct (authenticate (instant w) (users w) (authorization request))
    as [user| |detail];
    [destruct (check_permissions v _)..|];
    destruct (decide (method request = OPTIONS)) as [Hopt|Hopt];
    cbn [world trace result options run];
    (split; [done|split; [done|]]);
    first [ apply Hstatus
          | apply Hstatus'; intros m; discriminate
          | cbn [status_code]; unfold HTTP_200_OK; set_solver ].
Qed.

(** X13. The guarded endpoint has no effect, whatever the method and
    whatever the token: the world is the one before and the one call made
    is the authentication of the request. *)
Theorem secure_endpoint_has_no_effect (w : World) (request : Request) :
  world (run (dispatch SecureApiView request) w) = w ∧
  trace (run (dispatch SecureApiView request) w) =
    [Called (Perform_authentication (authorization request))].
Proof.
  rewrite run_dispatch. cbn zeta.
  destruct (authenticate (instant w) (users w) (authorization request));
    cbn [world trace]; try done;
    destruct (check_permissions SecureApiView _); cbn [world trace];
    try done; by destruct (method request).
Qed.

(** ** Sequences of served requests *)

Lemma serve_one_users (w : World) (request : Request) :
  Forall2 same_identity (users w) (users (serve_one w request)) ∨
  ∃ r, users (serve_one w request) = users w ++ [r] ∧
       username r ∉ username <$> users w.
Proof.
  unfold serve_one.
  destruct (serve request) as [p|] eqn:Hp;
    [|left; apply same_identity_refl].
  destruct (serve_world request p w Hp) as [->|[-> | ->]].
  - left. apply same_identity_refl.
  - destruct (register_cases w request)
      as [->|[(name & _ & _ & ->)
             |[(name & pw & mail & _ & _ & _ & _ & _ & ->)
              |(name & pw & mail & _ & _ & _ & _ & Hn & ->)]]];
      [left; apply same_identity_refl..|].
    right. by eexists.
  - left. apply login_users.
Qed.

Lemma serve_one_logs (w : World) (request : Request) :
  logs (serve_one w request) = logs w ∨
  ∃ name, name ≠ "" ∧ logs (serve_one w request) = logs w ++ [attempt name].
Proof.
  unfold serve_one. destruct (serve request) as [p|] eqn:Hp; [|by left].
  destruct (serve_world request p w Hp) as [->|[-> | ->]]; [by left| |].
  - left. apply register_logs.
  - rewrite login_logs.
    destruct (given (data request !! "username")) as [name|] eqn:Hu;
      [|left; apply app_nil_r].
    destruct (given (data request !! "password"));
      [|left; apply app_nil_r].
    right. exists name. by apply given_Some in Hu as [_ Hu].
Qed.

Lemma serve_all_cons (request : Request) (requests : list Request)
    (w : World) :
  serve_all (request :: requests) w = serve_all requests (serve_one w request).
Proof. reflexivity. Qed.

(** X1. Names stay unique: when no two rows of the user table share a
    name, no two do after any sequence of served requests. *)
Theorem serve_all_names_unique (requests : list Request) (w : World) :
  NoDup (username <$> users w) →
  NoDup (username <$> users (serve_all requests w)).
Proof.
  revert w. induction requests as [|request requests IH]; intros w Hnd;
    [done|].
  rewrite serve_all_cons. apply IH.
  destruct (serve_one_users w request) as [Hsame|(r & -> & Hr)].
  { by rewrite (same_identity_names _ _ Hsame). }
  rewrite fmap_app. apply NoDup_app. split; [done|]. split.
  - intros x Hx Hx'. apply list_elem_of_singleton in Hx'. by subst x.
  - apply NoDup_singleton.
Qed.


(** X14. Whatever requests are served, all that is added to the log are
    records of level INFO that say "Attempting login for" a non-empty
    name. *)
Theorem serve_all_logs (requests : list Request) (w : World) :
  ∃ new, logs (serve_all requests w) = logs w ++ new ∧
         Forall (λ r, ∃ name, name ≠ "" ∧
                   r = mkLog INFO ("Attempting login for " +:+ name)) new.
Proof.
  revert w. induction requests as [|request requests IH]; intros w.
  - exists []. split; [by rewrite app_nil_r|done].
  - rewrite serve_all_cons.
    destruct (IH (serve_one w request)) as (new & -> & Hnew).
    destruct (serve_one_logs w request) as [->|(name & Hname & ->)].
    + by exists new.
    + exists (attempt name :: new). split; [by rewrite <- (assoc_L (++))|].
      apply Forall_cons. split; [by exists name|done].
Qed.

End Endpoints.

(** * These theorems at work on the small instance *)

Lemma serve_all_names_unique_witness :
  NoDup (username <$>
           users (serve_all (C := Demo.collaborators)
                    [Demo.register_alice; Demo.register_alice;
                     Demo.register_bob; Demo.login_alice]
                    Demo.empty_world)).
Proof.
  apply (serve_all_names_unique (C := Demo.collaborators)).
  simpl. apply NoDup_nil_2.
Defined.

Lemma login_log_ignores_secret_witness :
  logs (world (run (C := Demo.collaborators)
                 (LoginUserView_post Demo.login_alice) Demo.alice_world)) =
  logs (world (run (C := Demo.collaborators)
                 (LoginUserView_post Demo.login_alice_wrong)
                 Demo.alice_world)).
Proof.
  apply (login_log_ignores_secret (C := Demo.collaborators)).
  - by vm_compute.
  - unfold absent_or_empty. split; intros [H|H]; by vm_compute in H.
Defined.

Lemma login_token_needs_credentials_witness :
  ∃ (name pw : string) (user : User),
    data Demo.login_alice !! "username" = Some name ∧ name ≠ "" ∧
    data Demo.login_alice !! "password" = Some pw ∧ pw ≠ "" ∧
    user ∈ users Demo.old_world ∧ username user = name ∧
    check_password (Collaborators := Demo.collaborators) pw (password user)
      = true ∧
    let user' :=
      checked_user (C := Demo.collaborators) (instant Demo.old_world) pw user
    in
    let w' := checked_world (C := Demo.collaborators) pw user Demo.old_world
    in
    same_identity user user' ∧
    result (run (C := Demo.collaborators)
              (LoginUserView_post Demo.login_alice) Demo.old_world) =
      mkResponse
        {[ "access_token" :=
             token_str (Collaborators := Demo.collaborators)
               (access_token (S (instant w'))
                  (for_user (instant w') user')) ]} 200.
Proof.
  apply (login_token_needs_credentials (C := Demo.collaborators)
           Demo.old_world Demo.login_alice).
  by vm_compute.
Defined.

Lemma register_then_login_witness :
  result (run (C := Demo.collaborators)
            (LoginUserView_post Demo.login_alice)
            (world (run (C := Demo.collaborators)
                      (RegisterUserView_post Demo.register_alice)
                      Demo.empty_world))) =
    mkResponse {[ "access_token" := "2" ]} 200.
Proof.
  apply (register_then_login (C := Demo.collaborators) Demo.empty_world
           Demo.register_alice Demo.login_alice "alice" "pw1" "a@x.com");
    try (by vm_compute).
  simpl. apply not_elem_of_nil.
Defined.

Lemma register_then_wrong_secret_witness :
  result (run (C := Demo.collaborators)
            (LoginUserView_post Demo.login_alice_wrong)
            (world (run (C := Demo.collaborators)
                      (RegisterUserView_post Demo.register_alice)
                      Demo.empty_world))) =
    mkResponse {[ "error" := "Invalid credentials" ]} 400.
Proof.
  apply (register_then_wrong_secret (C := Demo.collaborators)
           Demo.empty_world Demo.register_alice Demo.login_alice_wrong
           "alice" "pw1" "a@x.com" "wrong");
    try (by vm_compute).
  simpl. apply not_elem_of_nil.
Defined.

(** alice registers, then the name with the fullwidth first letter is
    submitted: the lookup misses it and the insert raises. *)
Lemma register_then_register_witness :
  let o1 := run (C := Demo.collaborators)
              (RegisterUserView_post Demo.register_alice) Demo.empty_world in
  let o2 := run (C := Demo.collaborators)
              (RegisterUserView_post Demo.register_wide_alice) (world o1) in
  status_code (result o2) = 500 ∧ users (world o2) = users (world o1).
Proof.
  intros o1 o2.
  destruct (register_then_register (C := Demo.collaborators)
              Demo.empty_world Demo.register_alice Demo.register_wide_alice
              "alice" "pw1" "a@x.com" "ａlice" "pw9" "w@X.COM"
              ltac:(by vm_compute) ltac:(done)
              ltac:(by vm_compute) ltac:(done)
              ltac:(by vm_compute) ltac:(done)
              ltac:(apply not_elem_of_nil) ltac:(apply not_elem_of_nil)
              ltac:(by vm_compute) ltac:(done)
              ltac:(by vm_compute) ltac:(done)
              ltac:(by vm_compute) ltac:(done)) as [_ H].
  cbv zeta in H.
  destruct (decide _) as [[Hd|Hd]|_] in H;
    [discriminate Hd|by apply elem_of_nil in Hd|].
  destruct (decide _) as [_|Hd] in H; [exact H|].
  exfalso. apply Hd. left. by vm_compute.
Defined.

Lemma open_endpoints_run_the_handler_witness :
  ∃ p, serve (C := Demo.collaborators) Demo.login_alice = Some p ∧
       result (run p Demo.alice_world) =
         result (run (C := Demo.collaborators)
                   (LoginUserView_post Demo.login_alice) Demo.alice_world) ∧
       world (run p Demo.alice_world) =
         world (run (C := Demo.collaborators)
                  (LoginUserView_post Demo.login_alice) Demo.alice_world) ∧
       trace (run p Demo.alice_world) =
         Called (Perform_authentication None)
           :: trace (run (C := Demo.collaborators)
                       (LoginUserView_post Demo.login_alice)
                       Demo.alice_world).
Proof.
  apply (open_endpoints_run_the_handler (C := Demo.collaborators)
           Demo.alice_world Demo.login_alice LoginUserView_post).
  - reflexivity.
  - intros detail. simpl. discriminate.
  - right. split; reflexivity.
Defined.

Lemma other_methods_run_no_handler_witness :
  world (run (C := Demo.collaborators)
           (dispatch LoginUserView Demo.get_login) Demo.alice_world) =
    Demo.alice_world ∧
  trace (run (C := Demo.collaborators)
           (dispatch LoginUserView Demo.get_login) Demo.alice_world) =
    [Called (Perform_authentication None)] ∧
  status_code (result (run (C := Demo.collaborators)
                         (dispatch LoginUserView Demo.get_login)
                         Demo.alice_world)) ∈ [401; 403; 405].
Proof.
  apply (other_methods_run_no_handler (C := Demo.collaborators)
           Demo.alice_world Demo.get_login).
  - reflexivity.
  - by vm_compute.
Defined.
